(** * ti/tv counting over VCF files: a shallow embedding of
      [PyVCF_titv/titv.py]

    The script keeps three process-wide counters ([ti], [tv],
    [num_records]), walks every input file with a hand-written
    [while True] loop around [vcf_reader.next()], prints a progress line
    whenever the per-file loop counter is a multiple of 1000 and a summary
    line at the very end.

    Python integers are modelled by [Z], the standard output by the list of
    events written to it, exceptions by an error result threaded through a
    small state-and-error monad. *)

From Stdlib Require Import ZArith List String Ascii Bool QArith Lia.
Import ListNotations.

Local Open Scope string_scope.
Local Open Scope list_scope.
Local Open Scope Z_scope.

(** ** Standard output *)

(** The four [print] calls of the script.  The ratio [float(ti) / float(tv)]
    is kept as the exact quotient of the two counters. *)
Inductive Line : Type :=
| ProcessingLine (fname : string)
    (* "Processing VCF file {}" *)
| ProgressLine (i tot ti_ tv_ : Z) (ratio : Q)
    (* "num records={}  tot={} ti={}  tv={}  ti/tv={}" *)
| SummaryLine (tot ti_ tv_ : Z) (ratio : Q)
    (* "tot={} ti={}  tv={}  ti/tv={}" *)
| UsageLine.
    (* "must specify VCF file" *)

Inductive Event : Type :=
| Print (l : Line)
| Flush.

(** ** Process state and exceptions *)

Record State : Type := mkState {
  ti : Z;
  tv : Z;
  num_records : Z;
  stdout : list Event
}.

Definition init_state : State :=
  {| ti := 0; tv := 0; num_records := 0; stdout := [] |}.

Inductive Exception : Type :=
| ZeroDivisionError
| StopIteration
| IOError
| SystemExit (code : Z).

Inductive Result (A : Type) : Type :=
| Ok (a : A)
| Raise (e : Exception).

Arguments Ok {A} a.
Arguments Raise {A} e.

(** A computation reads and updates the process state and either returns
    or raises.  The state is kept when an exception is raised: the
    counters are module globals and what was printed stays printed. *)
Definition M (A : Type) : Type := State -> Result A * State.

Definition ret {A} (a : A) : M A := fun s => (Ok a, s).

Definition raise {A} (e : Exception) : M A := fun s => (Raise e, s).

Definition bind {A B} (m : M A) (k : A -> M B) : M B :=
  fun s =>
    match m s with
    | (Ok a, s') => k a s'
    | (Raise e, s') => (Raise e, s')
    end.

Notation "x <- m ;; k" := (bind m (fun x => k))
  (at level 61, m at next level, right associativity).
Notation "m ;; k" := (bind m (fun _ => k))
  (at level 61, right associativity).

Definition emit (e : Event) : M unit :=
  fun s => (Ok tt, {| ti := ti s; tv := tv s; num_records := num_records s;
                      stdout := stdout s ++ [e] |}).

Definition print (l : Line) : M unit := emit (Print l).

Definition flush : M unit := emit Flush.

(** ** Variant records *)

(** What the script reads off a PyVCF record: the reference allele and the
    list of alternate alleles. *)
Record VcfRecord : Type := mkRecord {
  REF : string;
  ALT : list string
}.

Inductive SubstClass : Type :=
| Transition
| Transversion
| NotApplicable.

Definition upper (c : ascii) : ascii :=
  let n := nat_of_ascii c in
  if (Nat.leb 97 n && Nat.leb n 122)%bool then ascii_of_nat (n - 32) else c.

Definition is_nucleotide (c : ascii) : bool :=
  existsb (Ascii.eqb (upper c)) ["A"; "C"; "G"; "T"]%char.

Definition single_base (s : string) : option ascii :=
  match s with
  | String c EmptyString => Some c
  | _ => None
  end.

(** Modelled from the spec: the record property [is_snp], which
    [account_rec_native] reads and the PyVCF package defines; the script
    has no definition of it.  Section 3: true iff the reference allele
    has length 1, the considered alternate allele has length 1 and both are
    one of A, C, G, T, case-insensitive; section 4.1: the considered
    alternate allele is the first one. *)
Definition is_snp (rec : VcfRecord) : bool :=
  match ALT rec with
  | alt :: _ =>
      match single_base (REF rec), single_base alt with
      | Some r, Some a => is_nucleotide r && is_nucleotide a
      | _, _ => false
      end
  | [] => false
  end.

(** Modelled from the spec: the record property [is_transition], read by
    [account_rec_native] and defined by the PyVCF package.  Glossary: a
    substitution between nucleotides of the same chemical class, A<->G or
    C<->T. *)
Definition is_transition (rec : VcfRecord) : bool :=
  match ALT rec with
  | alt :: _ =>
      match single_base (REF rec), single_base alt with
      | Some r, Some a =>
          existsb
            (fun p => Ascii.eqb (upper r) (fst p) && Ascii.eqb (upper a) (snd p))
            [("A", "G"); ("G", "A"); ("C", "T"); ("T", "C")]%char
      | _, _ => false
      end
  | [] => false
  end.

(** ** The script *)

(** [account_rec_native], lines 14-21. *)
Definition account_rec_native (rec : VcfRecord) : M unit :=
  fun s =>
    if negb (is_snp rec) then (Ok tt, s)
    else if is_transition rec then
      (Ok tt, {| ti := ti s + 1; tv := tv s; num_records := num_records s;
                 stdout := stdout s |})
    else
      (Ok tt, {| ti := ti s; tv := tv s + 1; num_records := num_records s;
                 stdout := stdout s |}).

(** The class a record is counted under: the three ways through
    [account_rec_native]. *)
Definition classify_rec (rec : VcfRecord) : SubstClass :=
  if negb (is_snp rec) then NotApplicable
  else if is_transition rec then Transition
  else Transversion.

Definition classify (ref_allele alt_allele : string) : SubstClass :=
  classify_rec {| REF := ref_allele; ALT := [alt_allele] |}.

(** [print_totals], lines 23-29.  The ratio is computed first, so a zero
    [tv] raises before anything is printed. *)
Definition print_totals (i : option Z) : M unit :=
  fun s =>
    if tv s =? 0 then (Raise ZeroDivisionError, s)
    else
      let ratio := (inject_Z (ti s) / inject_Z (tv s))%Q in
      (match i with
       | Some i => print (ProgressLine i (num_records s) (ti s) (tv s) ratio)
       | None => print (SummaryLine (num_records s) (ti s) (tv s) ratio)
       end ;;
       flush) s.

Definition incr_num_records : M unit :=
  fun s => (Ok tt, {| ti := ti s; tv := tv s;
                      num_records := num_records s + 1;
                      stdout := stdout s |}).

(** [nlimit is not None and i >= nlimit], lines 43-44. *)
Definition limit_reached (nlimit : option Z) (i : Z) : bool :=
  match nlimit with
  | Some n => n <=? i
  | None => false
  end.

(** The [while True] loop of [process_file], lines 38-47.  [vcf_reader] is
    what the reader has not yet handed out; [vcf_reader.next()] on an
    exhausted reader raises [StopIteration].  The loop returns, through its
    only [break], what is left of the reader. *)
Fixpoint while_true (nlimit : option Z) (vcf_reader : list VcfRecord) (i : Z)
  : M (list VcfRecord) :=
  incr_num_records ;;
  let i := i + 1 in
  (if i mod 1000 =? 0 then print_totals (Some i) else ret tt) ;;
  if limit_reached nlimit i then ret vcf_reader
  else
    match vcf_reader with
    | [] => raise StopIteration
    | rec :: rest => account_rec_native rec ;; while_true nlimit rest i
    end.

(** The files the script is given.  [Some recs]: [open] and
    [vcf.Reader(f)], lines 35-36, both succeed and the reader will hand
    out the records [recs]; [None]: [open] fails.  A file that opens but
    that [vcf.Reader] refuses, and a line that the reader cannot parse,
    are outside the model. *)
Definition FileSystem : Type := string -> option (list VcfRecord).

(** [process_file], lines 32-47. *)
Definition process_file (fs : FileSystem) (fname : string) (nlimit : option Z)
  : M unit :=
  print (ProcessingLine fname) ;;
  match fs fname with
  | None => raise IOError
  | Some vcf_reader => while_true nlimit vcf_reader 0 ;; ret tt
  end.

Fixpoint for_each {A} (xs : list A) (body : A -> M unit) : M unit :=
  match xs with
  | [] => ret tt
  | x :: rest => body x ;; for_each rest body
  end.

(** The module body, lines 49-65: [filenames] is [args.filenames], [None]
    when no [--file] was given. *)
Definition main (fs : FileSystem) (filenames : option (list string))
  (nlimit : option Z) : M unit :=
  match filenames with
  | None | Some [] => print UsageLine ;; raise (SystemExit 1)
  | Some fnames =>
      for_each fnames (fun fname => process_file fs fname nlimit) ;;
      print_totals None
  end.

(** ** Vocabulary of the statements *)

(** The four nucleotide symbols of the table. *)
Definition bases : list ascii := ["A"; "C"; "G"; "T"]%char.

(** A one-character allele. *)
Definition allele (c : ascii) : string := String c EmptyString.




(** An allele with a character that is not A, C, G or T in either case. *)
Definition foreign (s : string) : Prop :=
  exists c, In c (list_ascii_of_string s) /\ is_nucleotide c = false.

(** The records the specification wants left out of both counters. *)
Definition not_a_substitution (ref_allele alt_allele : string) : Prop :=
  ref_allele = alt_allele \/
  String.length ref_allele <> 1%nat \/ String.length alt_allele <> 1%nat \/
  foreign ref_allele \/ foreign alt_allele.

(** The state once [num_records += 1] has run. *)
Definition seen (s : State) : State :=
  mkState (ti s) (tv s) (num_records s + 1) (stdout s).

Definition with_stdout (s : State) (out : list Event) : State :=
  mkState (ti s) (tv s) (num_records s) out.

Definition ratio_of (s : State) : Q := (inject_Z (ti s) / inject_Z (tv s))%Q.

(** The line [print_totals i] writes in state [s]. *)
Definition totals_line (i : option Z) (s : State) : Line :=
  match i with
  | Some i => ProgressLine i (num_records s) (ti s) (tv s) (ratio_of s)
  | None => SummaryLine (num_records s) (ti s) (tv s) (ratio_of s)
  end.

(** How much [account_rec_native] adds to [ti + tv]. *)
Definition counted (rec : VcfRecord) : Z := if is_snp rec then 1 else 0.

Fixpoint count_classified (recs : list VcfRecord) : Z :=
  match recs with
  | [] => 0
  | rec :: rest => counted rec + count_classified rest
  end.

(** A printed line of totals never shows more classified records than
    records. *)
Definition line_bounded (e : Event) : Prop :=
  match e with
  | Print (ProgressLine _ tot a b _) => a + b <= tot
  | Print (SummaryLine tot a b _) => a + b <= tot
  | _ => True
  end.

Definition counters_bounded (s : State) : Prop :=
  ti s + tv s <= num_records s /\ Forall line_bounded (stdout s).

Definition is_summary (e : Event) : bool :=
  match e with
  | Print (SummaryLine _ _ _ _) => true
  | _ => false
  end.

(** The [num records=] and [tot=] fields of the progress lines of an
    output, in the order printed. *)
Fixpoint progress_fields (out : list Event) : list (Z * Z) :=
  match out with
  | [] => []
  | Print (ProgressLine i tot _ _ _) :: rest => (i, tot) :: progress_fields rest
  | _ :: rest => progress_fields rest
  end.

(** Every progress line of the output is followed at once by a flush. *)
Fixpoint flushed (out : list Event) : bool :=
  match out with
  | [] => true
  | Print (ProgressLine _ _ _ _ _) :: rest =>
      match rest with
      | Flush :: _ => flushed rest
      | _ => false
      end
  | _ :: rest => flushed rest
  end.

(** The values the loop counter takes in [n] iterations entered with
    counter [i]: i+1, ..., i+n. *)
Fixpoint counter_values (i : Z) (n : nat) : list Z :=
  match n with
  | O => []
  | S m => (i + 1) :: counter_values (i + 1) m
  end.

Definition multiple_of_1000 (k : Z) : bool := k mod 1000 =? 0.

(** The state in which the loop of [process_file] is entered. *)
Definition announced (fname : string) (s : State) : State :=
  with_stdout s (stdout s ++ [Print (ProcessingLine fname)]).

(** ** Sample inputs *)

Definition snp (ref_allele alt_allele : string) : VcfRecord :=
  {| REF := ref_allele; ALT := [alt_allele] |}.

(** [2 * n] records, (A,G) and (G,T) in turn. *)
Fixpoint alternating (n : nat) : list VcfRecord :=
  match n with
  | O => []
  | S m => snp "A" "G" :: snp "G" "T" :: alternating m
  end.

(** A file system with the one file [a.vcf]. *)
Definition one_file (recs : list VcfRecord) : FileSystem :=
  fun fname => if String.eqb fname "a.vcf" then Some recs else None.

(** A file system in which every name opens on the same records. *)
Definition every_file (recs : list VcfRecord) : FileSystem :=
  fun _ => Some recs.

(** The progress lines a cadence counted across files would give after
    [total] records: one per multiple of 1000, its [num records=] field
    equal to the running total. *)
Definition cumulative_progress (total : Z) : list (Z * Z) :=
  map (fun k => (k, k))
      (filter multiple_of_1000 (counter_values 0 (Z.to_nat total))).

(** ** Vocabulary of the statements on whole runs *)

Definition class_eqb (c d : SubstClass) : bool :=
  match c, d with
  | Transition, Transition => true
  | Transversion, Transversion => true
  | NotApplicable, NotApplicable => true
  | _, _ => false
  end.

(** How many of the records [account_rec_native] counts under class [c]. *)
Fixpoint count_class (c : SubstClass) (recs : list VcfRecord) : Z :=
  match recs with
  | [] => 0
  | rec :: rest =>
      (if class_eqb (classify_rec rec) c then 1 else 0) + count_class c rest
  end.

(** The file names of the [Processing VCF file] lines of an output, in the
    order printed. *)
Fixpoint announced_files (out : list Event) : list string :=
  match out with
  | [] => []
  | Print (ProcessingLine fname) :: rest => fname :: announced_files rest
  | _ :: rest => announced_files rest
  end.

(** What the loop writes: progress lines and flushes. *)
Definition is_progress_or_flush (e : Event) : bool :=
  match e with
  | Print (ProgressLine _ _ _ _ _) => true
  | Flush => true
  | _ => false
  end.

(** A line of totals that can be trusted: its [tv] field is positive, its
    [ti] field is not negative, its ratio is the quotient of the two, it
    shows fewer classified records than records, and a progress line has a
    [num records=] field that is a multiple of 1000 between 1000 and its
    [tot=] field. *)
Definition line_sound (e : Event) : Prop :=
  match e with
  | Print (ProgressLine i tot a b r) =>
      0 <= a /\ 0 < b /\ r = (inject_Z a / inject_Z b)%Q /\ a + b < tot /\
      multiple_of_1000 i = true /\ 1000 <= i <= tot
  | Print (SummaryLine tot a b r) =>
      0 <= a /\ 0 < b /\ r = (inject_Z a / inject_Z b)%Q /\ a + b < tot
  | _ => True
  end.

(** The counters never go back and the output is only added to. *)
Definition extends (s s' : State) : Prop :=
  ti s <= ti s' /\ tv s <= tv s' /\ num_records s <= num_records s' /\
  exists new, stdout s' = stdout s ++ new.

(** No line of totals has been printed. *)
Definition no_totals (out : list Event) : bool :=
  forallb (fun e => match e with
                    | Print (ProgressLine _ _ _ _ _) => false
                    | Print (SummaryLine _ _ _ _) => false
                    | _ => true
                    end) out.

Definition is_usage (e : Event) : bool :=
  match e with
  | Print UsageLine => true
  | _ => false
  end.

(** A state whose counters and printed lines can be trusted. *)
Definition sound (s : State) : Prop :=
  0 <= ti s /\ 0 <= tv s /\ ti s + tv s <= num_records s /\
  Forall line_sound (stdout s).

(** The progress lines of an output, in the order printed. *)
Fixpoint progress_lines (out : list Event) : list Line :=
  match out with
  | [] => []
  | Print (ProgressLine i tot a b r) :: rest =>
      ProgressLine i tot a b r :: progress_lines rest
  | _ :: rest => progress_lines rest
  end.

(** The value of [ti] when the loop, entered with counter [i] in state [s]
    on the records [recs], is in the turn whose counter is [k]: the
    records before that turn have been classified. *)
Definition ti_at (s : State) (recs : list VcfRecord) (i k : Z) : Z :=
  ti s + count_class Transition (firstn (Z.to_nat (k - i - 1)) recs).

Definition tv_at (s : State) (recs : list VcfRecord) (i k : Z) : Z :=
  tv s + count_class Transversion (firstn (Z.to_nat (k - i - 1)) recs).

(** The progress line of that turn: the counter, and [num_records], [ti]
    and [tv] as they stand, with the quotient of the last two. *)
Definition progress_line_at (s : State) (recs : list VcfRecord) (i k : Z)
  : Line :=
  ProgressLine k (num_records s + (k - i)) (ti_at s recs i k)
    (tv_at s recs i k)
    (inject_Z (ti_at s recs i k) / inject_Z (tv_at s recs i k))%Q.

(** The turns in which a progress line is printed: the counter is a
    multiple of 1000 and [tv] is not zero. *)
Definition progress_due (s : State) (recs : list VcfRecord) (i k : Z)
  : bool :=
  multiple_of_1000 k && negb (tv_at s recs i k =? 0).

(** * Classification *)

Module Classifier.

(** [account_rec_native] moves the counters as [classify_rec] says and
    touches nothing else. *)
Lemma account_rec_native_classify (rec : VcfRecord) (s : State) :
  account_rec_native rec s =
  (Ok tt,
   match classify_rec rec with
   | Transition => mkState (ti s + 1) (tv s) (num_records s) (stdout s)
   | Transversion => mkState (ti s) (tv s + 1) (num_records s) (stdout s)
   | NotApplicable => s
   end).
Proof.
  unfold account_rec_native, classify_rec.
  destruct (is_snp rec); simpl; [destruct (is_transition rec)|]; reflexivity.
Qed.



(** C9.  The specification wants a record whose two alleles are the same
    base left out of both counters.  The script does not do that: for each of
    A, C, G, T such a record is a SNP that is not a transition, so the
    [else] branch of [account_rec_native] adds one to [tv], whatever the
    state; and the four records (A,G), (C,T), (A,C), (A,A) read under
    [--nlimit 5] leave [tv] at 2, the last of them counted as a
    transversion. *)
Theorem same_base_is_transversion :
  Forall
    (fun x =>
       not_a_substitution (allele x) (allele x) /\
       classify (allele x) (allele x) = Transversion /\
       forall s,
         account_rec_native (snp (allele x) (allele x)) s =
         (Ok tt, mkState (ti s) (tv s + 1) (num_records s) (stdout s)))
    bases /\
  while_true (Some 5)
    [snp "A" "G"; snp "C" "T"; snp "A" "C"; snp "A" "A"] 0 init_state =
  (Ok [], {| ti := 2; tv := 2; num_records := 5; stdout := [] |}).
Proof.
  split; [|reflexivity].
  repeat constructor; intros s; reflexivity.
Qed.

End Classifier.

(** * The statements of the script, one by one *)

Module Steps.

Lemma print_totals_zero (i : option Z) (s : State) :
  tv s = 0 -> print_totals i s = (Raise ZeroDivisionError, s).
Proof.
  intros H. unfold print_totals. now rewrite H.
Qed.

Lemma print_totals_nonzero (i : option Z) (s : State) :
  tv s <> 0 ->
  print_totals i s =
  (Ok tt, with_stdout s (stdout s ++ [Print (totals_line i s); Flush])).
Proof.
  intros H. unfold print_totals.
  destruct (Z.eqb_spec (tv s) 0) as [E | _]; [contradiction|].
  unfold bind, print, flush, emit, with_stdout, totals_line, ratio_of.
  destruct i; cbn; now rewrite <- app_assoc.
Qed.

Lemma account_rec_native_counts (rec : VcfRecord) (s : State) :
  exists s',
    account_rec_native rec s = (Ok tt, s') /\
    num_records s' = num_records s /\ stdout s' = stdout s /\
    ti s <= ti s' /\ tv s <= tv s' /\
    ti s' + tv s' = ti s + tv s + counted rec.
Proof.
  unfold account_rec_native, counted.
  destruct (is_snp rec); cbn; [destruct (is_transition rec)|];
    eexists; (split; [reflexivity|]); cbn; repeat split; lia.
Qed.

(** One turn of the loop: the head of the body up to the limit test, then
    either the way out or the next turn. *)
Lemma while_true_unfold (nlimit : option Z) (recs : list VcfRecord) (i : Z)
  (s : State) :
  while_true nlimit recs i s =
  if multiple_of_1000 (i + 1) && (tv s =? 0) then
    (Raise ZeroDivisionError, seen s)
  else
    let s1 :=
      if multiple_of_1000 (i + 1) then
        with_stdout (seen s)
          (stdout s ++ [Print (totals_line (Some (i + 1)) (seen s)); Flush])
      else seen s in
    if limit_reached nlimit (i + 1) then (Ok recs, s1)
    else
      match recs with
      | [] => (Raise StopIteration, s1)
      | rec :: rest =>
          while_true nlimit rest (i + 1) (snd (account_rec_native rec s1))
      end.
Proof.
  assert (Hhead :
    forall k : M (list VcfRecord),
      (incr_num_records ;;
       (if (i + 1) mod 1000 =? 0 then print_totals (Some (i + 1)) else ret tt) ;;
       k) s =
      if multiple_of_1000 (i + 1) && (tv s =? 0) then
        (Raise ZeroDivisionError, seen s)
      else
        k (if multiple_of_1000 (i + 1) then
             with_stdout (seen s)
               (stdout s ++ [Print (totals_line (Some (i + 1)) (seen s)); Flush])
           else seen s)).
  { intros k. unfold multiple_of_1000, bind at 1, incr_num_records.
    fold (seen s).
    destruct ((i + 1) mod 1000 =? 0); cbn [andb].
    - destruct (Z.eqb_spec (tv s) 0) as [E | E].
      + unfold bind. now rewrite (print_totals_zero _ (seen s) E).
      + unfold bind. now rewrite (print_totals_nonzero _ (seen s) E).
    - reflexivity. }
  destruct recs as [|rec rest]; cbn [while_true]; rewrite Hhead;
    destruct (multiple_of_1000 (i + 1) && (tv s =? 0)); try reflexivity;
    cbv zeta; destruct (limit_reached nlimit (i + 1)); try reflexivity.
  unfold bind at 1.
  match goal with
  | |- context [account_rec_native rec ?s1] =>
      destruct (account_rec_native_counts rec s1) as [s' [E _]]; rewrite E
  end.
  reflexivity.
Qed.

End Steps.

(** * The loop of [process_file] *)

Module Loop.

Import Steps.

(** Rewrite one turn of the loop and split on its three tests. *)
Ltac turn :=
  rewrite while_true_unfold;
  match goal with
  | |- context [multiple_of_1000 ?k && (tv ?s =? 0)] =>
      destruct (multiple_of_1000 k) eqn:Hmult;
      [destruct (Z.eqb_spec (tv s) 0) as [Htv | Htv]|];
      cbn [andb]; cbv zeta
  end;
  try match goal with
      | |- context [limit_reached ?l ?k] =>
          destruct (limit_reached l k) eqn:Hlimit
      end.

(** Name the state [account_rec_native] leaves and what it kept. *)
Ltac read_record rec s' Hn Ho Hs :=
  match goal with
  | |- context [account_rec_native rec ?s1] =>
      let E := fresh "E" in
      destruct (account_rec_native_counts rec s1)
        as [s' [E [Hn [Ho [_ [_ Hs]]]]]]; rewrite E; cbn [snd]
  end.

(** After the head of a turn there is room for one more classified
    record. *)
Lemma head_leaves_room (i : Z) (s : State) (b : bool) :
  counters_bounded s ->
  let s1 :=
    if b then
      with_stdout (seen s)
        (stdout s ++ [Print (totals_line (Some i) (seen s)); Flush])
    else seen s in
  ti s1 + tv s1 + 1 <= num_records s1 /\ Forall line_bounded (stdout s1).
Proof.
  intros [Hc Hout]. destruct b; cbn; (split; [lia|]); [|exact Hout].
  apply Forall_app. split; [exact Hout|].
  repeat constructor. cbn. lia.
Qed.

Lemma account_keeps_bounded (rec : VcfRecord) (s : State) :
  ti s + tv s + 1 <= num_records s /\ Forall line_bounded (stdout s) ->
  counters_bounded (snd (account_rec_native rec s)).
Proof.
  intros [Hc Hout].
  destruct (account_rec_native_counts rec s) as [s' [E [Hn [Ho [_ [_ Hs]]]]]].
  rewrite E. cbn [snd]. unfold counters_bounded. rewrite Ho, Hn.
  split; [|exact Hout].
  unfold counted in Hs. destruct (is_snp rec); lia.
Qed.

Lemma while_true_bounded (recs : list VcfRecord) :
  forall nlimit i s,
    counters_bounded s ->
    counters_bounded (snd (while_true nlimit recs i s)).
Proof.
  induction recs as [|rec rest IH]; intros nlimit i s Hb; turn; cbn [snd];
    try (destruct Hb as [Hc Hout]; split; cbn; [lia | exact Hout]);
    try (apply IH; apply account_keeps_bounded);
    try (pose proof (head_leaves_room (i + 1) s true Hb) as [H1 H2];
         first [ split; [cbn in H1 |- *; lia | exact H2]
               | split; [exact H1 | exact H2] ]);
    try (pose proof (head_leaves_room (i + 1) s false Hb) as [H1 H2];
         first [ split; [cbn in H1 |- *; lia | exact H2]
               | split; [exact H1 | exact H2] ]).
Qed.

(** With no limit the loop has no way out but an exception, and when the
    reader runs dry [num_records] has been incremented once more than
    records were read. *)
Lemma while_true_unlimited (recs : list VcfRecord) :
  forall i s,
    match while_true None recs i s with
    | (Ok _, _) => False
    | (Raise StopIteration, s') =>
        num_records s' = num_records s + Z.of_nat (List.length recs) + 1 /\
        ti s' + tv s' = ti s + tv s + count_classified recs
    | (Raise ZeroDivisionError, _) => True
    | (Raise _, _) => False
    end.
Proof.
  induction recs as [|rec rest IH]; intros i s; turn;
    try exact I; try discriminate Hlimit; try (cbn; split; lia);
    read_record rec s' Hn Ho Hs;
    specialize (IH (i + 1) s');
    destruct (while_true None rest (i + 1) s') as [[rest' | []] s'']; auto;
    cbn in Hn, Hs; cbn [List.length count_classified]; lia.
Qed.

(** With a limit [n] above the entry value of the counter and enough
    records, the loop leaves by its [break] (or by the division) after
    [n - i] turns, having read [n - i - 1] records. *)
Lemma while_true_limited (recs : list VcfRecord) :
  forall n i s,
    i < n ->
    n - 1 - i <= Z.of_nat (List.length recs) ->
    match while_true (Some n) recs i s with
    | (Ok rest, s') =>
        Z.of_nat (List.length rest) = Z.of_nat (List.length recs) - (n - 1 - i) /\
        num_records s' = num_records s + (n - i) /\
        ti s' + tv s' =
        ti s + tv s + count_classified (firstn (Z.to_nat (n - 1 - i)) recs)
    | (Raise e, _) => e = ZeroDivisionError
    end.
Proof.
  induction recs as [|rec rest IH]; intros n i s Hi Hlen; turn;
    try reflexivity; cbn [limit_reached] in Hlimit;
    try (apply Z.leb_le in Hlimit; assert (E : n - 1 - i = 0) by lia;
         rewrite E; cbn; lia);
    apply Z.leb_gt in Hlimit; cbn [List.length] in Hlen; try lia;
    read_record rec s' Hn Ho Hs;
    specialize (IH n (i + 1) s' ltac:(lia) ltac:(lia));
    (destruct (while_true (Some n) rest (i + 1) s') as [[rest' | e] s''];
     [|exact IH]);
    destruct IH as [H1 [H2 H3]];
    replace (Z.to_nat (n - 1 - i)) with (S (Z.to_nat (n - 1 - (i + 1))))
      by lia;
    cbn [firstn count_classified List.length]; cbn in Hn, Hs; lia.
Qed.

(** ** What the loop prints *)

Lemma progress_fields_app (a b : list Event) :
  progress_fields (a ++ b) = progress_fields a ++ progress_fields b.
Proof.
  induction a as [|[[]|] a IH]; cbn; rewrite ?IH; reflexivity.
Qed.

Lemma flushed_app (a b : list Event) :
  flushed a = true -> flushed b = true -> flushed (a ++ b) = true.
Proof.
  induction a as [|e a IH]; intros Ha Hb; [exact Hb|].
  destruct e as [[]|]; cbn in Ha |- *; auto.
  destruct a as [|[|] a]; try discriminate. cbn in Ha |- *. auto.
Qed.

Lemma no_summary_app (a b : list Event) :
  existsb is_summary a = false -> existsb is_summary b = false ->
  existsb is_summary (a ++ b) = false.
Proof.
  intros Ha Hb. rewrite existsb_app, Ha, Hb. reflexivity.
Qed.

(** The output of the loop, turn by turn: [S n] turns are taken, nothing
    already printed is touched, no summary line is written, every progress
    line is flushed at once and, unless the division stopped the loop, the
    progress lines are those of the counter values that are multiples of
    1000, each with the running [num_records]. *)
Lemma while_true_output (recs : list VcfRecord) :
  forall nlimit i s,
  exists n new,
    num_records (snd (while_true nlimit recs i s)) =
      num_records s + Z.of_nat (S n) /\
    stdout (snd (while_true nlimit recs i s)) = stdout s ++ new /\
    existsb is_summary new = false /\
    flushed new = true /\
    (fst (while_true nlimit recs i s) <> Raise ZeroDivisionError ->
     progress_fields new =
     map (fun k => (k, num_records s + (k - i)))
         (filter multiple_of_1000 (counter_values i (S n)))).
Proof.
  induction recs as [|rec rest IH]; intros nlimit i s; turn; cbn [fst snd];
    try (exists O, []; cbn [counter_values filter]; rewrite ?Hmult;
         cbn; rewrite app_nil_r;
         repeat split; solve [lia | congruence | reflexivity]);
    try (exists O, [Print (totals_line (Some (i + 1)) (seen s)); Flush];
         cbn [counter_values filter]; rewrite ?Hmult;
         cbn; repeat split; intros; repeat f_equal; lia).
  - read_record rec s' Hn Ho Hs.
    destruct (IH nlimit (i + 1) s') as [n [new [H1 [H2 [H3 [H4 H5]]]]]].
    exists (S n), ([Print (totals_line (Some (i + 1)) (seen s)); Flush] ++ new).
    cbn in Hn, Ho. rewrite H1, H2, Hn, Ho.
    split; [lia|]. split; [now rewrite <- app_assoc|].
    split; [apply no_summary_app; [reflexivity | exact H3]|].
    split; [apply flushed_app; [reflexivity | exact H4]|].
    intros Hr. rewrite progress_fields_app, (H5 Hr).
    change (counter_values i (S (S n)))
      with ((i + 1) :: counter_values (i + 1) (S n)).
    cbn [filter]. rewrite Hmult. cbn [map app progress_fields totals_line].
    f_equal; [f_equal; cbn; lia|].
    apply map_ext. intros k. f_equal. lia.
  - read_record rec s' Hn Ho Hs.
    destruct (IH nlimit (i + 1) s') as [n [new [H1 [H2 [H3 [H4 H5]]]]]].
    exists (S n), new.
    cbn in Hn, Ho. rewrite H1, H2, Hn, Ho.
    split; [lia|]. split; [reflexivity|].
    split; [exact H3|]. split; [exact H4|].
    intros Hr. rewrite (H5 Hr).
    change (counter_values i (S (S n)))
      with ((i + 1) :: counter_values (i + 1) (S n)).
    cbn [filter]. rewrite Hmult.
    apply map_ext. intros k. f_equal. lia.
Qed.

End Loop.

(** * Files and the whole run *)

Module Run.

Import Steps Loop.

Lemma process_file_unfold (fs : FileSystem) (fname : string)
  (nlimit : option Z) (s : State) :
  process_file fs fname nlimit s =
  match fs fname with
  | None => (Raise IOError, announced fname s)
  | Some recs =>
      match while_true nlimit recs 0 (announced fname s) with
      | (Ok _, s') => (Ok tt, s')
      | (Raise e, s') => (Raise e, s')
      end
  end.
Proof.
  unfold process_file, bind, print, emit, ret, raise, announced, with_stdout.
  destruct (fs fname) as [recs|]; [|reflexivity].
  destruct (while_true nlimit recs 0 _) as [[rest | e] s']; reflexivity.
Qed.

Lemma for_each_preserves {A} (P : State -> Prop) (body : A -> M unit)
  (xs : list A) :
  (forall x s, P s -> P (snd (body x s))) ->
  forall s, P s -> P (snd (for_each xs body s)).
Proof.
  intros Hbody. induction xs as [|x xs IH]; intros s Hs; [exact Hs|].
  cbn [for_each]. unfold bind.
  pose proof (Hbody x s Hs) as Hx.
  destruct (body x s) as [[[] | e] s']; cbn [snd] in Hx |- *; auto.
Qed.

Lemma for_each_raises {A} (body : A -> M unit) (x : A) (xs : list A)
  (s : State) :
  (forall y t, fst (body y t) <> Ok tt) ->
  fst (for_each (x :: xs) body s) <> Ok tt.
Proof.
  intros Hbody. cbn [for_each]. unfold bind.
  pose proof (Hbody x s) as Hx.
  destruct (body x s) as [[[] | e] s']; cbn [fst] in Hx |- *;
    [now elim Hx | discriminate].
Qed.

Lemma process_file_bounded (fs : FileSystem) (fname : string)
  (nlimit : option Z) (s : State) :
  counters_bounded s ->
  counters_bounded (snd (process_file fs fname nlimit s)).
Proof.
  intros [Hc Hout]. rewrite process_file_unfold.
  assert (Ha : counters_bounded (announced fname s)).
  { split; [exact Hc|]. cbn. apply Forall_app. split; [exact Hout|].
    repeat constructor. }
  destruct (fs fname) as [recs|]; [|exact Ha].
  pose proof (while_true_bounded recs nlimit 0 _ Ha) as Hw.
  destruct (while_true nlimit recs 0 (announced fname s)) as [[rest | e] s'];
    exact Hw.
Qed.

Lemma process_file_unlimited (fs : FileSystem) (fname : string) (s : State) :
  fst (process_file fs fname None s) <> Ok tt.
Proof.
  rewrite process_file_unfold.
  destruct (fs fname) as [recs|]; [|discriminate].
  pose proof (while_true_unlimited recs 0 (announced fname s)) as Hw.
  destruct (while_true None recs 0 (announced fname s)) as [[rest | e] s'];
    [destruct Hw | discriminate].
Qed.

Lemma process_file_no_summary (fs : FileSystem) (fname : string)
  (nlimit : option Z) (s : State) :
  existsb is_summary (stdout s) = false ->
  existsb is_summary (stdout (snd (process_file fs fname nlimit s))) = false.
Proof.
  intros Hs. rewrite process_file_unfold.
  assert (Ha : existsb is_summary (stdout (announced fname s)) = false).
  { cbn. apply no_summary_app; [exact Hs | reflexivity]. }
  destruct (fs fname) as [recs|]; [|exact Ha].
  destruct (while_true_output recs nlimit 0 (announced fname s))
    as [n [new [_ [Hout [Hnew _]]]]].
  destruct (while_true nlimit recs 0 (announced fname s)) as [[rest | e] s'];
    cbn [snd] in Hout |- *; rewrite Hout; now apply no_summary_app.
Qed.

Lemma print_totals_bounded (i : option Z) (s : State) :
  counters_bounded s -> counters_bounded (snd (print_totals i s)).
Proof.
  intros [Hc Hout].
  destruct (Z.eq_dec (tv s) 0) as [E | E].
  - rewrite (print_totals_zero i s E). now split.
  - rewrite (print_totals_nonzero i s E). split; [exact Hc|].
    cbn. apply Forall_app. split; [exact Hout|].
    repeat constructor. destruct i; cbn; exact Hc.
Qed.

Lemma main_bounded (fs : FileSystem) (filenames : option (list string))
  (nlimit : option Z) (s : State) :
  counters_bounded s ->
  counters_bounded (snd (main fs filenames nlimit s)).
Proof.
  intros Hb.
  assert (Husage :
    counters_bounded
      (snd ((print UsageLine ;; (raise (SystemExit 1) : M unit)) s))).
  { destruct Hb as [Hc Hout]. split; [exact Hc|].
    cbn. apply Forall_app. split; [exact Hout|]. repeat constructor. }
  destruct filenames as [[|fname fnames]|]; try exact Husage.
  unfold main, bind.
  pose proof (for_each_preserves counters_bounded
                (fun fname => process_file fs fname nlimit)
                (fname :: fnames)
                (fun x t => process_file_bounded fs x nlimit t) s Hb) as Hf.
  destruct (for_each (fname :: fnames) _ s) as [[[] | e] s'];
    cbn [snd] in Hf |- *; [|exact Hf].
  now apply print_totals_bounded.
Qed.

End Run.

(** * The counters *)

Module Accumulator.

Import Steps Loop Run.

(** C2.  [ti + tv <= num_records] holds of the zero counters and, from
    any state in which it holds, still holds when the loop ends, whichever
    way it ends and whatever the counter value it was entered with, and
    when a whole run of the script ends; every line of totals printed on
    the way shows counters that satisfy it too. *)
Theorem counters_bounded_always (fs : FileSystem)
  (filenames : option (list string)) (nlimit : option Z)
  (recs : list VcfRecord) (i : Z) (s : State) :
  counters_bounded s ->
  counters_bounded init_state /\
  counters_bounded (snd (while_true nlimit recs i s)) /\
  counters_bounded (snd (main fs filenames nlimit s)).
Proof.
  intros Hs.
  split; [split; [cbn; lia | constructor]|].
  split; [now apply while_true_bounded | now apply main_bounded].
Qed.

Lemma counters_bounded_always_witness :
  counters_bounded init_state /\
  counters_bounded
    (snd (while_true (Some 4)
            [snp "A" "G"; snp "AT" "A"; snp "A" "C"] 0 init_state)) /\
  counters_bounded
    (snd (main (one_file [snp "A" "G"; snp "AT" "A"; snp "A" "C"])
               (Some ["a.vcf"]) (Some 4) init_state)).
Proof.
  apply (counters_bounded_always
           (one_file [snp "A" "G"; snp "AT" "A"; snp "A" "C"])
           (Some ["a.vcf"]) (Some 4)
           [snp "A" "G"; snp "AT" "A"; snp "A" "C"] 0 init_state).
  split; [cbn; lia | constructor].
Defined.

(** C4.  Whenever the reader runs dry, [num_records] is one more than
    the number of records read (the turn that found the reader exhausted
    was counted as a record), while [ti + tv] has grown by the number of
    records classified.  So for a file of three records, one of them a
    deletion: read to the end of the stream, both SNPs are counted and
    [num_records] stands at 4; and under [--nlimit 4], which lets all
    three records through and the run end normally, the summary line
    itself says tot=4. *)
Theorem num_records_one_ahead :
  (forall recs i s,
      match while_true None recs i s with
      | (Raise StopIteration, s') =>
          num_records s' = num_records s + Z.of_nat (List.length recs) + 1 /\
          ti s' + tv s' = ti s + tv s + count_classified recs
      | (Raise ZeroDivisionError, _) => True
      | _ => False
      end) /\
  main (one_file [snp "A" "G"; snp "A" "C"; snp "AT" "A"])
       (Some ["a.vcf"]) None init_state =
  (Raise StopIteration,
   {| ti := 1; tv := 1; num_records := 4;
      stdout := [Print (ProcessingLine "a.vcf")] |}) /\
  main (one_file [snp "A" "G"; snp "A" "C"; snp "AT" "A"])
       (Some ["a.vcf"]) (Some 4) init_state =
  (Ok tt,
   {| ti := 1; tv := 1; num_records := 4;
      stdout := [Print (ProcessingLine "a.vcf");
                 Print (SummaryLine 4 1 1 (1 # 1)); Flush] |}).
Proof.
  split; [|split; reflexivity].
  intros recs i s.
  pose proof (while_true_unlimited recs i s) as H.
  destruct (while_true None recs i s) as [[rest | []] s']; exact H.
Qed.

End Accumulator.

(** * The per-file limit *)

Module Limit.

Import Steps.

(** C6.  [--nlimit 1] reads no record of any file: the loop breaks in
    its first turn, the reader untouched.  [--nlimit 3] on a file of four
    SNPs: the loop breaks in its third turn before reading, so two records
    are classified and two are left in the reader. *)
Theorem limit_stops_one_short :
  (forall recs s, while_true (Some 1) recs 0 s = (Ok recs, seen s)) /\
  while_true (Some 3) (alternating 2) 0 init_state =
  (Ok [snp "A" "G"; snp "G" "T"],
   {| ti := 1; tv := 1; num_records := 3; stdout := [] |}) /\
  main (one_file (alternating 2)) (Some ["a.vcf"]) (Some 3) init_state =
  (Ok tt,
   {| ti := 1; tv := 1; num_records := 3;
      stdout := [Print (ProcessingLine "a.vcf");
                 Print (SummaryLine 3 1 1 (1 # 1)); Flush] |}).
Proof.
  split; [|split; reflexivity].
  intros recs s. rewrite while_true_unfold. reflexivity.
Qed.

End Limit.

(** * The progress lines of one file *)

Module Cadence.

Import Steps Loop.

Lemma progress_lines_app (a b : list Event) :
  progress_lines (a ++ b) = progress_lines a ++ progress_lines b.
Proof.
  induction a as [|[[]|] a IH]; cbn; rewrite ?IH; reflexivity.
Qed.

Lemma counter_values_above (n : nat) :
  forall i k, In k (counter_values i n) -> i < k.
Proof.
  induction n as [|n IH]; intros i k; cbn; [tauto|].
  intros [<- | H]; [lia|]. specialize (IH (i + 1) k H). lia.
Qed.

Lemma account_fields (rec : VcfRecord) (s : State) :
  ti (snd (account_rec_native rec s)) =
    ti s + (if class_eqb (classify_rec rec) Transition then 1 else 0) /\
  tv (snd (account_rec_native rec s)) =
    tv s + (if class_eqb (classify_rec rec) Transversion then 1 else 0) /\
  num_records (snd (account_rec_native rec s)) = num_records s /\
  stdout (snd (account_rec_native rec s)) = stdout s.
Proof.
  rewrite Classifier.account_rec_native_classify.
  destruct (classify_rec rec); cbn; repeat split; lia.
Qed.

(** In the first turn the counters are those of the entry state. *)
Lemma progress_head (s : State) (recs : list VcfRecord) (i : Z) :
  map (progress_line_at s recs i) (filter (progress_due s recs i) [i + 1]) =
  if multiple_of_1000 (i + 1) && negb (tv s =? 0)
  then [totals_line (Some (i + 1)) (seen s)] else [].
Proof.
  assert (Hti : ti_at s recs i (i + 1) = ti s).
  { unfold ti_at. replace (i + 1 - i - 1) with 0 by lia. cbn. lia. }
  assert (Htv : tv_at s recs i (i + 1) = tv s).
  { unfold tv_at. replace (i + 1 - i - 1) with 0 by lia. cbn. lia. }
  cbn [filter]. unfold progress_due. rewrite Htv.
  destruct (multiple_of_1000 (i + 1) && negb (tv s =? 0)); [|reflexivity].
  cbn [map]. unfold progress_line_at. rewrite Hti, Htv.
  unfold totals_line, ratio_of, seen. cbn [ti tv num_records].
  replace (num_records s + (i + 1 - i)) with (num_records s + 1) by lia.
  reflexivity.
Qed.

(** Past the first turn the counters are those of the loop entered one
    turn later on the remaining records. *)
Lemma progress_tail (rec : VcfRecord) (rest : list VcfRecord) (i : Z)
  (s s2 : State) (m : nat) :
  ti s2 = ti s + (if class_eqb (classify_rec rec) Transition then 1 else 0) ->
  tv s2 =
    tv s + (if class_eqb (classify_rec rec) Transversion then 1 else 0) ->
  num_records s2 = num_records s + 1 ->
  map (progress_line_at s (rec :: rest) i)
      (filter (progress_due s (rec :: rest) i) (counter_values (i + 1) m)) =
  map (progress_line_at s2 rest (i + 1))
      (filter (progress_due s2 rest (i + 1)) (counter_values (i + 1) m)).
Proof.
  intros Hti Htv Hn.
  assert (Hshift : forall k, i + 1 < k ->
            ti_at s (rec :: rest) i k = ti_at s2 rest (i + 1) k /\
            tv_at s (rec :: rest) i k = tv_at s2 rest (i + 1) k).
  { intros k Hk. unfold ti_at, tv_at.
    replace (Z.to_nat (k - i - 1)) with (S (Z.to_nat (k - (i + 1) - 1)))
      by lia.
    cbn [firstn count_class]. rewrite Hti, Htv. lia. }
  rewrite (filter_ext_in (progress_due s (rec :: rest) i)
             (progress_due s2 rest (i + 1))).
  - apply map_ext_in. intros k Hk. apply filter_In in Hk.
    destruct Hk as [Hk _]. apply counter_values_above in Hk.
    destruct (Hshift k Hk) as [E1 E2].
    unfold progress_line_at. rewrite E1, E2, Hn. f_equal. lia.
  - intros k Hk. apply counter_values_above in Hk.
    destruct (Hshift k Hk) as [_ E2].
    unfold progress_due. now rewrite E2.
Qed.

(** The output of the loop, line by line: [S n] turns are taken; what is
    written is progress lines, each flushed at once; and the progress
    lines are those of the turns whose counter is a multiple of 1000 and
    in which [tv] is not zero, each showing the counters of its turn. *)
Lemma while_true_progress (recs : list VcfRecord) :
  forall nlimit i s,
  exists n new,
    num_records (snd (while_true nlimit recs i s)) =
      num_records s + Z.of_nat (S n) /\
    stdout (snd (while_true nlimit recs i s)) = stdout s ++ new /\
    forallb is_progress_or_flush new = true /\
    flushed new = true /\
    progress_lines new =
    map (progress_line_at s recs i)
        (filter (progress_due s recs i) (counter_values i (S n))).
Proof.
  induction recs as [|rec rest IH]; intros nlimit i s; turn; cbn [snd];
    try (exists O, []; change (counter_values i 1) with [i + 1];
         rewrite progress_head, Hmult, ?Htv; cbn; rewrite app_nil_r;
         repeat split; lia);
    try (exists O, [Print (totals_line (Some (i + 1)) (seen s)); Flush];
         change (counter_values i 1) with [i + 1];
         rewrite progress_head, Hmult;
         apply Z.eqb_neq in Htv; rewrite Htv; cbn;
         repeat split; lia).
  - match goal with
    | |- context [account_rec_native rec ?s1] =>
        destruct (account_fields rec s1) as [Fti [Ftv [Fn Fo]]];
        destruct (IH nlimit (i + 1) (snd (account_rec_native rec s1)))
          as [n [new [H1 [H2 [H3 [H4 H5]]]]]]
    end.
    cbn [ti tv num_records stdout with_stdout seen] in Fti, Ftv, Fn, Fo.
    exists (S n), ([Print (totals_line (Some (i + 1)) (seen s)); Flush] ++ new).
    rewrite H1, H2, Fn, Fo.
    split; [lia|]. split; [now rewrite <- app_assoc|].
    split; [exact H3|]. split; [apply flushed_app; [reflexivity | exact H4]|].
    rewrite progress_lines_app, H5.
    change (counter_values i (S (S n)))
      with ([i + 1] ++ counter_values (i + 1) (S n)).
    rewrite filter_app, map_app, progress_head, Hmult.
    apply Z.eqb_neq in Htv. rewrite Htv. cbn [andb negb].
    rewrite (progress_tail rec rest i s _ (S n) Fti Ftv Fn).
    reflexivity.
  - match goal with
    | |- context [account_rec_native rec ?s1] =>
        destruct (account_fields rec s1) as [Fti [Ftv [Fn Fo]]];
        destruct (IH nlimit (i + 1) (snd (account_rec_native rec s1)))
          as [n [new [H1 [H2 [H3 [H4 H5]]]]]]
    end.
    cbn [ti tv num_records stdout with_stdout seen] in Fti, Ftv, Fn, Fo.
    exists (S n), new.
    rewrite H1, H2, Fn, Fo.
    split; [lia|]. split; [reflexivity|].
    split; [exact H3|]. split; [exact H4|].
    rewrite H5.
    change (counter_values i (S (S n)))
      with ([i + 1] ++ counter_values (i + 1) (S n)).
    rewrite filter_app, map_app, progress_head, Hmult. cbn [andb app].
    rewrite (progress_tail rec rest i s _ (S n) Fti Ftv Fn).
    reflexivity.
Qed.

End Cadence.

(** * What is printed *)

Module Reporter.

Import Steps Loop Run.

(** C3.  With [tv] at zero [print_totals] raises [ZeroDivisionError]
    and prints nothing, whatever the other counters.  So for two
    transitions and no transversion, with a limit that lets the loop leave
    normally, the final [print_totals(None)] ends the run by that
    exception and no line of totals is printed. *)
Theorem summary_divides_by_zero :
  (forall i a n out,
      print_totals i (mkState a 0 n out) =
      (Raise ZeroDivisionError, mkState a 0 n out)) /\
  main (one_file [snp "A" "G"; snp "C" "T"]) (Some ["a.vcf"]) (Some 3)
       init_state =
  (Raise ZeroDivisionError,
   {| ti := 2; tv := 0; num_records := 3;
      stdout := [Print (ProcessingLine "a.vcf")] |}).
Proof.
  split; [|reflexivity].
  intros i a n out. now apply print_totals_zero.
Qed.

(** C5.  Without [--nlimit] no run returns normally and no run prints a
    summary line: the usage error exits, and otherwise the first file ends
    the run by an exception. *)
Theorem no_limit_no_summary (fs : FileSystem)
  (filenames : option (list string)) :
  fst (main fs filenames None init_state) <> Ok tt /\
  existsb is_summary (stdout (snd (main fs filenames None init_state))) = false.
Proof.
  destruct filenames as [[|fname fnames]|];
    try (split; [discriminate | reflexivity]).
  unfold main, bind.
  pose proof (for_each_raises (fun fname => process_file fs fname None)
                fname fnames init_state
                (fun y t => process_file_unlimited fs y t)) as Hr.
  pose proof (for_each_preserves
                (fun s => existsb is_summary (stdout s) = false)
                (fun fname => process_file fs fname None)
                (fname :: fnames)
                (fun x t => process_file_no_summary fs x None t)
                init_state eq_refl) as Hs.
  destruct (for_each (fname :: fnames) _ init_state) as [[[] | e] s'];
    cbn [fst snd] in Hr, Hs |- *.
  - now elim Hr.
  - split; [discriminate | exact Hs].
Qed.

(** C7.  A file of 1000 SNPs, (A,G) and (G,T) in turn: the progress line
    of turn 1000 is printed before record 1000 is read and shows ti=500,
    tv=499 and the ratio 500/499; the last transversion is counted after
    it. *)
Theorem snapshot_before_record_1000 :
  main (one_file (alternating 500)) (Some ["a.vcf"]) None init_state =
  (Raise StopIteration,
   {| ti := 500; tv := 500; num_records := 1001;
      stdout := [Print (ProcessingLine "a.vcf");
                 Print (ProgressLine 1000 1000 500 499 (500 # 499));
                 Flush] |}) /\
  ~ (500 # 499 == 1)%Q.
Proof.
  split; [vm_compute; reflexivity|].
  unfold Qeq. cbn. lia.
Qed.

(** C8, as the script has it.  While one file is processed, what is
    written after its announcement is progress lines and flushes, every
    line flushed at once, and the progress lines are exactly those of the
    turns in which the loop counter of that file, which starts from zero
    whatever was counted before, is a multiple of 1000 and [tv] is not
    zero: each shows that counter in its [num records=] field, the
    running [num_records], [ti] and [tv] as they stand in that turn, and
    the quotient of the last two. *)
Theorem progress_per_file_counter (fs : FileSystem) (fname : string)
  (nlimit : option Z) (recs : list VcfRecord) (s : State) :
  fs fname = Some recs ->
  let s' := snd (process_file fs fname nlimit s) in
  exists new,
    stdout s' = stdout s ++ Print (ProcessingLine fname) :: new /\
    forallb is_progress_or_flush new = true /\
    flushed new = true /\
    progress_lines new =
    map (progress_line_at s recs 0)
        (filter (progress_due s recs 0)
           (counter_values 0 (Z.to_nat (num_records s' - num_records s)))).
Proof.
  intros Hf s'. subst s'.
  rewrite process_file_unfold, Hf.
  destruct (Cadence.while_true_progress recs nlimit 0 (announced fname s))
    as [n [new [H1 [H2 [H3 [H4 H5]]]]]].
  assert (Hsnd :
    snd (let (r, t) := while_true nlimit recs 0 (announced fname s) in
         match r with
         | Ok _ => (Ok tt, t)
         | Raise e => (Raise e, t)
         end) = snd (while_true nlimit recs 0 (announced fname s))).
  { destruct (while_true nlimit recs 0 (announced fname s)) as [[rest | e] t];
      reflexivity. }
  rewrite Hsnd, H1, H2.
  exists new.
  split; [cbn; now rewrite <- app_assoc|].
  split; [exact H3|]. split; [exact H4|].
  cbn [announced with_stdout num_records].
  replace (Z.to_nat (num_records s + Z.of_nat (S n) - num_records s))
    with (S n) by lia.
  exact H5.
Qed.

Lemma progress_per_file_counter_witness :
  let s' := snd (process_file (one_file (alternating 1000)) "a.vcf"
                   (Some 2500) (mkState 7 5 2200 [])) in
  exists new,
    stdout s' = [] ++ Print (ProcessingLine "a.vcf") :: new /\
    forallb is_progress_or_flush new = true /\
    flushed new = true /\
    progress_lines new =
    map (progress_line_at (mkState 7 5 2200 []) (alternating 1000) 0)
        (filter (progress_due (mkState 7 5 2200 []) (alternating 1000) 0)
           (counter_values 0 (Z.to_nat (num_records s' - 2200)))).
Proof.
  apply (progress_per_file_counter (one_file (alternating 1000)) "a.vcf"
           (Some 2500) (alternating 1000) (mkState 7 5 2200 [])).
  reflexivity.
Defined.

(** C8 fails as stated: two files under [--nlimit 1200].  Counted across
    files, 2400 records would give the lines (1000, 1000) and (2000, 2000);
    the script prints its second line in turn 1000 of the second file,
    with 1000 in the [num records=] field and 2200 in the [tot=] field. *)
Lemma progress_counter_restarts :
  let s := snd (main (every_file (alternating 750))
                     (Some ["a.vcf"; "b.vcf"]) (Some 1200) init_state) in
  num_records s = 2400 /\
  cumulative_progress (num_records s) = [(1000, 1000); (2000, 2000)] /\
  progress_fields (stdout s) = [(1000, 1000); (1000, 2200)] /\
  progress_fields (stdout s) <> cumulative_progress (num_records s).
Proof.
  vm_compute. repeat split. discriminate.
Qed.

(** C10.  With a non-zero [tv], [print_totals] returns normally, leaves
    the three counters as they were and appends one line and one flush to
    the output; run again at once it appends the very same line. *)
Theorem print_totals_twice (i : option Z) (s : State) :
  tv s <> 0 ->
  let r1 := print_totals i s in
  let r2 := print_totals i (snd r1) in
  fst r1 = Ok tt /\ fst r2 = Ok tt /\
  (ti (snd r1), tv (snd r1), num_records (snd r1)) =
    (ti s, tv s, num_records s) /\
  (ti (snd r2), tv (snd r2), num_records (snd r2)) =
    (ti s, tv s, num_records s) /\
  exists line,
    stdout (snd r1) = stdout s ++ [Print line; Flush] /\
    stdout (snd r2) = stdout (snd r1) ++ [Print line; Flush].
Proof.
  intros Htv r1 r2. subst r1 r2.
  rewrite (print_totals_nonzero i s Htv). cbn [snd fst].
  rewrite (print_totals_nonzero i (with_stdout s _) Htv). cbn [snd fst].
  repeat (split; [reflexivity|]).
  exists (totals_line i s). split; [reflexivity|].
  cbn [with_stdout stdout]. destruct i; reflexivity.
Qed.

Lemma print_totals_twice_witness :
  let r1 := print_totals (Some 1000) (mkState 500 499 1000 []) in
  let r2 := print_totals (Some 1000) (snd r1) in
  fst r1 = Ok tt /\ fst r2 = Ok tt /\
  (ti (snd r1), tv (snd r1), num_records (snd r1)) = (500, 499, 1000) /\
  (ti (snd r2), tv (snd r2), num_records (snd r2)) = (500, 499, 1000) /\
  exists line,
    stdout (snd r1) = [] ++ [Print line; Flush] /\
    stdout (snd r2) = stdout (snd r1) ++ [Print line; Flush].
Proof.
  apply (print_totals_twice (Some 1000) (mkState 500 499 1000 [])).
  cbn. discriminate.
Defined.

End Reporter.

(** * The loop, turn by turn *)

Module Trace.

Import Steps Loop Run.

Lemma count_class_nonneg (c : SubstClass) (recs : list VcfRecord) :
  0 <= count_class c recs.
Proof.
  induction recs as [|rec rest IH]; cbn; [lia|].
  destruct (class_eqb (classify_rec rec) c); lia.
Qed.

(** However the loop ends, it has read [k] records in [k + 1] turns; the
    limit was not reached in the first [k] turns, and the way the loop
    ended says what stopped it in the last. *)
Lemma while_true_trace (recs : list VcfRecord) :
  forall nlimit i s,
  exists k : nat,
    (k <= List.length recs)%nat /\
    num_records (snd (while_true nlimit recs i s)) =
      num_records s + Z.of_nat k + 1 /\
    ti (snd (while_true nlimit recs i s)) =
      ti s + count_class Transition (firstn k recs) /\
    tv (snd (while_true nlimit recs i s)) =
      tv s + count_class Transversion (firstn k recs) /\
    (forall j, i < j <= i + Z.of_nat k -> limit_reached nlimit j = false) /\
    match fst (while_true nlimit recs i s) with
    | Ok rest =>
        rest = skipn k recs /\
        limit_reached nlimit (i + Z.of_nat k + 1) = true
    | Raise StopIteration =>
        k = List.length recs /\
        limit_reached nlimit (i + Z.of_nat k + 1) = false
    | Raise ZeroDivisionError =>
        multiple_of_1000 (i + Z.of_nat k + 1) = true /\
        tv (snd (while_true nlimit recs i s)) = 0
    | Raise _ => False
    end.
Proof.
  induction recs as [|rec rest IH]; intros nlimit i s; turn; cbn [fst snd];
    try (exists O; cbn [firstn skipn count_class List.length Z.of_nat];
         rewrite ?Z.add_0_r;
         repeat split; solve [ lia | assumption | reflexivity
                             | cbn; lia | intros; lia ]);
    rewrite Classifier.account_rec_native_classify; cbn [snd];
    match goal with
    | |- context [while_true nlimit rest (i + 1) ?s2] =>
        destruct (IH nlimit (i + 1) s2) as [k [Hk [Hn [Hti [Htv' [Hj Hend]]]]]];
        exists (S k); rewrite Hn, Hti, Htv';
        replace (i + Z.of_nat (S k) + 1) with (i + 1 + Z.of_nat k + 1) by lia;
        rewrite ?Nat2Z.inj_succ;
        cbn [firstn skipn count_class List.length];
        (split; [lia|]);
        (split; [destruct (classify_rec rec);
                 cbn [class_eqb ti tv num_records seen with_stdout]; lia|]);
        (split; [destruct (classify_rec rec);
                 cbn [class_eqb ti tv num_records seen with_stdout]; lia|]);
        (split; [destruct (classify_rec rec);
                 cbn [class_eqb ti tv num_records seen with_stdout]; lia|]);
        split;
        [ intros j Hjr; destruct (Z.eq_dec j (i + 1)) as [-> | Hne];
          [exact Hlimit | apply Hj; lia]
        | destruct (fst (while_true nlimit rest (i + 1) s2)) as [r | []];
          try exact Hend;
          destruct Hend as [H1 H2]; split;
          first [ exact H1 | exact H2 | now rewrite H1
                | rewrite <- Htv'; exact H2 ]
        ]
    end.
Qed.

Lemma limit_reached_below (nlimit : option Z) (j k : Z) :
  j <= k -> limit_reached nlimit k = false -> limit_reached nlimit j = false.
Proof.
  destruct nlimit as [n|]; cbn; [|reflexivity].
  intros Hjk Hk. apply Z.leb_gt in Hk. apply Z.leb_gt. lia.
Qed.

(** X1.  However the loop ends, the records handed to
    [account_rec_native] are the first [k] that the reader hands out,
    where [k + 1] is what the loop added to [num_records]: one turn more
    than records read.  [ti] has grown by the transitions among them and
    [tv] by the transversions; a [break] leaves the other records in the
    reader, the [StopIteration] of [next()] means all were read, and the
    [ZeroDivisionError] of [print_totals] comes in a turn whose counter is
    a multiple of 1000, with [tv] at zero. *)
Theorem loop_reads_one_less_than_turns (nlimit : option Z)
  (recs : list VcfRecord) (i : Z) (s : State) :
  let s' := snd (while_true nlimit recs i s) in
  let k := Z.to_nat (num_records s' - num_records s - 1) in
  num_records s < num_records s' /\
  (k <= List.length recs)%nat /\
  ti s' = ti s + count_class Transition (firstn k recs) /\
  tv s' = tv s + count_class Transversion (firstn k recs) /\
  match fst (while_true nlimit recs i s) with
  | Ok rest => rest = skipn k recs
  | Raise StopIteration => k = List.length recs
  | Raise ZeroDivisionError =>
      multiple_of_1000 (i + Z.of_nat k + 1) = true /\ tv s' = 0
  | Raise _ => True
  end.
Proof.
  intros s' k. subst s' k.
  destruct (while_true_trace recs nlimit i s)
    as [k [Hk [Hn [Hti [Htv [_ Hend]]]]]].
  rewrite Hn.
  replace (Z.to_nat (num_records s + Z.of_nat k + 1 - num_records s - 1))
    with k by lia.
  split; [lia|]. split; [exact Hk|]. split; [exact Hti|]. split; [exact Htv|].
  destruct (fst (while_true nlimit recs i s)) as [rest | []];
    try exact I; apply Hend.
Qed.

(** X2.  Under [--nlimit n] the loop of a file leaves by its [break] only
    after [max n 1] turns, with the first [max n 1 - 1] records read, and
    it raises [StopIteration] only on a file of fewer than [n - 1]
    records. *)
Theorem limited_loop_outcomes (n : Z) (recs : list VcfRecord) (s : State) :
  match fst (while_true (Some n) recs 0 s) with
  | Ok rest =>
      num_records (snd (while_true (Some n) recs 0 s)) =
        num_records s + Z.max n 1 /\
      rest = skipn (Z.to_nat (Z.max n 1 - 1)) recs /\
      Z.max n 1 - 1 <= Z.of_nat (List.length recs)
  | Raise StopIteration => Z.of_nat (List.length recs) < n - 1
  | Raise ZeroDivisionError => 1000 <= n
  | Raise _ => False
  end.
Proof.
  destruct (while_true_trace recs (Some n) 0 s)
    as [k [Hk [Hn [_ [_ [Hj Hend]]]]]].
  assert (Hbelow : Z.of_nat k < n \/ k = O).
  { destruct k as [|k]; [now right|left].
    specialize (Hj (Z.of_nat (S k)) ltac:(lia)).
    cbn [limit_reached] in Hj. apply Z.leb_gt in Hj. lia. }
  destruct (fst (while_true (Some n) recs 0 s)) as [rest | []];
    try exact Hend.
  - destruct Hend as [-> Hlast]. cbn [limit_reached] in Hlast.
    apply Z.leb_le in Hlast. rewrite Hn.
    assert (E : Z.max n 1 = Z.of_nat k + 1) by lia.
    rewrite E. replace (Z.to_nat (Z.of_nat k + 1 - 1)) with k by lia.
    repeat split; lia.
  - destruct Hend as [Hmult _].
    unfold multiple_of_1000 in Hmult. apply Z.eqb_eq in Hmult.
    assert (1000 <= 0 + Z.of_nat k + 1).
    { assert (Hpos : 1 <= 0 + Z.of_nat k + 1) by lia.
      revert Hmult Hpos. generalize (0 + Z.of_nat k + 1).
      intros z Hm Hz. Z.div_mod_to_equations. lia. }
    destruct Hbelow as [Hb | ->]; [lia | cbn in H; lia].
  - destruct Hend as [-> Hlast]. cbn [limit_reached] in Hlast.
    apply Z.leb_gt in Hlast. lia.
Qed.

End Trace.

(** * What a whole run prints and how it ends *)

Module Whole.

Import Steps Loop Run Trace.

Lemma announced_files_app (a b : list Event) :
  announced_files (a ++ b) = announced_files a ++ announced_files b.
Proof.
  induction a as [|[[]|] a IH]; cbn; rewrite ?IH; reflexivity.
Qed.

Lemma progress_or_flush_quiet (out : list Event) :
  forallb is_progress_or_flush out = true ->
  announced_files out = [] /\ existsb is_summary out = false.
Proof.
  induction out as [|[[]|] out IH]; cbn; intros H; try discriminate; auto.
Qed.

(** The loop writes progress lines and flushes after what was there. *)
Lemma while_true_prints (recs : list VcfRecord) :
  forall nlimit i s,
  exists new,
    stdout (snd (while_true nlimit recs i s)) = stdout s ++ new /\
    forallb is_progress_or_flush new = true.
Proof.
  induction recs as [|rec rest IH]; intros nlimit i s; turn; cbn [snd];
    try (exists []; cbn; now rewrite app_nil_r);
    try (eexists; split; [reflexivity | reflexivity]);
    read_record rec s' Hn Ho Hs;
    destruct (IH nlimit (i + 1) s') as [new [H1 H2]];
    rewrite H1, Ho; cbn [stdout with_stdout seen].
  - eexists. rewrite <- app_assoc. split; [reflexivity|].
    cbn. exact H2.
  - exists new. split; [reflexivity | exact H2].
Qed.

Lemma process_file_prints (fs : FileSystem) (fname : string)
  (nlimit : option Z) (s : State) :
  exists new,
    stdout (snd (process_file fs fname nlimit s)) =
      stdout s ++ Print (ProcessingLine fname) :: new /\
    forallb is_progress_or_flush new = true.
Proof.
  rewrite process_file_unfold.
  destruct (fs fname) as [recs|]; [|exists []; split; reflexivity].
  destruct (while_true_prints recs nlimit 0 (announced fname s))
    as [new [H1 H2]].
  exists new. split; [|exact H2].
  destruct (while_true nlimit recs 0 (announced fname s)) as [[rest | e] s'];
    cbn [snd] in H1 |- *; rewrite H1; cbn; now rewrite <- app_assoc.
Qed.

(** The files are taken in the order given and the first exception ends
    the walk: what is announced is a first part of the list, all of it
    when the walk returns. *)
Lemma for_each_files (fs : FileSystem) (nlimit : option Z)
  (fnames : list string) :
  forall s,
  exists new done rest,
    stdout (snd (for_each fnames
                   (fun fname => process_file fs fname nlimit) s)) =
      stdout s ++ new /\
    existsb is_summary new = false /\
    announced_files new = done /\
    fnames = done ++ rest /\
    match fnames with
    | [] => done = []
    | f :: _ => exists done', done = f :: done'
    end /\
    match fst (for_each fnames
                 (fun fname => process_file fs fname nlimit) s) with
    | Ok _ => rest = []
    | Raise _ => True
    end.
Proof.
  induction fnames as [|f fnames IH]; intros s.
  - exists [], [], []. cbn. rewrite app_nil_r. repeat split.
  - cbn [for_each]. unfold bind.
    destruct (process_file_prints fs f nlimit s) as [new1 [H1 H2]].
    destruct (progress_or_flush_quiet new1 H2) as [Ha Hs].
    destruct (process_file fs f nlimit s) as [[[] | e] s1]; cbn [fst snd] in *.
    + destruct (IH s1) as [new2 [done2 [rest2 [E1 [E2 [E3 [E4 [_ E6]]]]]]]].
      exists ((Print (ProcessingLine f) :: new1) ++ new2), (f :: done2), rest2.
      rewrite E1, H1, <- app_assoc.
      split; [reflexivity|].
      split; [rewrite existsb_app; cbn; now rewrite Hs, E2|].
      split; [rewrite announced_files_app; cbn; now rewrite Ha, E3|].
      split; [cbn; now rewrite <- E4|].
      split; [now exists done2 | exact E6].
    + exists (Print (ProcessingLine f) :: new1), [f], fnames.
      rewrite H1. cbn. rewrite Ha, Hs.
      repeat split. now exists [].
Qed.

(** X4.  The files named on the command line are announced in the order
    given, the first one always; a run that returns normally has announced
    them all, and a run that ends by an exception has announced a first
    part of the list and touched none of the others. *)
Theorem files_announced_in_order (fs : FileSystem) (f : string)
  (fnames : list string) (nlimit : option Z) (s : State) :
  exists done rest,
    fnames = done ++ rest /\
    announced_files (stdout (snd (main fs (Some (f :: fnames)) nlimit s))) =
      announced_files (stdout s) ++ f :: done /\
    match fst (main fs (Some (f :: fnames)) nlimit s) with
    | Ok _ => rest = []
    | Raise _ => True
    end.
Proof.
  unfold main, bind.
  destruct (for_each_files fs nlimit (f :: fnames) s)
    as [new [done [rest [E1 [_ [E3 [E4 [[done' E5] E6]]]]]]]].
  subst done. rewrite E5 in E4. injection E4 as E4.
  exists done', rest. split; [exact E4|].
  destruct (for_each (f :: fnames) _ s) as [[[] | e] s1]; cbn [fst snd] in *.
  - destruct (Z.eq_dec (tv s1) 0) as [Hz | Hz].
    + rewrite (print_totals_zero None s1 Hz). cbn [fst snd].
      rewrite E1, announced_files_app, E5. now split.
    + rewrite (print_totals_nonzero None s1 Hz). cbn [fst snd with_stdout stdout].
      rewrite E1, !announced_files_app, E5. cbn. rewrite app_nil_r.
      now split.
  - rewrite E1, announced_files_app, E5. now split.
Qed.

(** What each way out of [process_file] says about the file. *)
Lemma process_file_cases (fs : FileSystem) (fname : string)
  (nlimit : option Z) (s : State) :
  match fst (process_file fs fname nlimit s) with
  | Ok _ =>
      exists n, nlimit = Some n /\
        num_records (snd (process_file fs fname nlimit s)) =
          num_records s + Z.max n 1
  | Raise IOError => fs fname = None
  | Raise StopIteration =>
      exists recs, fs fname = Some recs /\
        limit_reached nlimit (Z.of_nat (List.length recs) + 1) = false
  | Raise ZeroDivisionError =>
      tv (snd (process_file fs fname nlimit s)) = 0
  | Raise (SystemExit _) => False
  end.
Proof.
  rewrite process_file_unfold.
  destruct (fs fname) as [recs|]; [|reflexivity].
  destruct (while_true_trace recs nlimit 0 (announced fname s))
    as [k [Hk [Hn [_ [_ [Hj Hend]]]]]].
  destruct (while_true nlimit recs 0 (announced fname s)) as [[rest | e] s'];
    cbn [fst snd] in *.
  - destruct Hend as [_ Hlast].
    destruct nlimit as [n|]; [|discriminate Hlast].
    exists n. split; [reflexivity|].
    cbn [limit_reached] in Hlast. apply Z.leb_le in Hlast.
    assert (Hbelow : Z.of_nat k < n \/ k = O).
    { destruct k as [|k]; [now right|left].
      specialize (Hj (Z.of_nat (S k)) ltac:(lia)).
      cbn [limit_reached] in Hj. apply Z.leb_gt in Hj. lia. }
    rewrite Hn. cbn [announced with_stdout num_records]. lia.
  - destruct e; try exact Hend.
    + apply Hend.
    + exists recs. split; [reflexivity|].
      destruct Hend as [-> Hlast]. exact Hlast.
    + destruct Hend.
Qed.

Lemma for_each_files_ok (fs : FileSystem) (n : Z) (fnames : list string) :
  forall s,
    fst (for_each fnames (fun fname => process_file fs fname (Some n)) s)
      = Ok tt ->
    num_records
      (snd (for_each fnames (fun fname => process_file fs fname (Some n)) s)) =
    num_records s + Z.max n 1 * Z.of_nat (List.length fnames).
Proof.
  induction fnames as [|f fnames IH]; intros s; cbn [for_each].
  - intros _. cbn. lia.
  - unfold bind.
    pose proof (process_file_cases fs f (Some n) s) as Hc.
    destruct (process_file fs f (Some n) s) as [[[] | e] s1];
      cbn [fst snd] in *; [|discriminate].
    destruct Hc as [m [Em Hn]]. injection Em as <-.
    intros Hok. rewrite (IH s1 Hok), Hn.
    cbn [List.length]. lia.
Qed.

(** An exception that ends the walk over the files was raised by one of
    them, and the state is as that file left it. *)
Lemma for_each_raise_inv {A} (body : A -> M unit) (e : Exception)
  (xs : list A) :
  forall s,
    fst (for_each xs body s) = Raise e ->
    exists x t, In x xs /\ body x t = (Raise e, snd (for_each xs body s)).
Proof.
  induction xs as [|x xs IH]; intros s; cbn [for_each].
  - discriminate.
  - unfold bind. destruct (body x s) as [[[] | e'] s1] eqn:E; cbn [fst snd].
    + intros H. destruct (IH s1 H) as [y [t [Hin Ht]]].
      exists y, t. split; [now right | exact Ht].
    + intros H. injection H as ->. exists x, s. split; [now left | exact E].
Qed.

(** X5.  A run that returns normally was given at least one file and a
    limit [n]; it has added [max n 1] to [num_records] for every file
    named, whatever the files hold; [tv] is not zero; and the last things
    written are the one summary line of the run, showing the final
    counters, and its flush. *)
Theorem normal_run (fs : FileSystem) (filenames : option (list string))
  (nlimit : option Z) (s : State) :
  fst (main fs filenames nlimit s) = Ok tt ->
  let s' := snd (main fs filenames nlimit s) in
  exists n f fnames mid,
    nlimit = Some n /\ filenames = Some (f :: fnames) /\
    num_records s' =
      num_records s + Z.max n 1 * Z.of_nat (List.length (f :: fnames)) /\
    tv s' <> 0 /\
    stdout s' =
      stdout s ++ mid ++
      [Print (SummaryLine (num_records s') (ti s') (tv s') (ratio_of s'));
       Flush] /\
    existsb is_summary mid = false.
Proof.
  destruct filenames as [[|f fnames]|]; try discriminate.
  unfold main, bind.
  pose proof (for_each_raises (fun fname => process_file fs fname None)
                f fnames s (fun y t => process_file_unlimited fs y t)) as Hnone.
  destruct (for_each_files fs nlimit (f :: fnames) s)
    as [mid [_ [_ [E1 [E2 _]]]]].
  pose proof (fun n => for_each_files_ok fs n (f :: fnames) s) as Hcount.
  destruct nlimit as [n|].
  - specialize (Hcount n). clear Hnone.
    destruct (for_each (f :: fnames) _ s) as [[[] | e] s1];
      cbn [fst snd] in *; [|discriminate].
    destruct (Z.eq_dec (tv s1) 0) as [Hz | Hz].
    + rewrite (print_totals_zero None s1 Hz). discriminate.
    + rewrite (print_totals_nonzero None s1 Hz). intros _.
      cbn [snd with_stdout ti tv num_records stdout].
      exists n, f, fnames, mid.
      split; [reflexivity|]. split; [reflexivity|].
      split; [exact (Hcount eq_refl)|]. split; [exact Hz|].
      split; [rewrite E1, <- app_assoc; reflexivity | exact E2].
  - destruct (for_each (f :: fnames) _ s) as [[[] | e] s1];
      cbn [fst snd] in *; [now elim Hnone | discriminate].
Qed.

Lemma normal_run_witness :
  let s' := snd (main (one_file (alternating 2)) (Some ["a.vcf"]) (Some 3)
                      init_state) in
  exists n f fnames mid,
    Some 3 = Some n /\ Some ["a.vcf"] = Some (f :: fnames) /\
    num_records s' =
      num_records init_state
      + Z.max n 1 * Z.of_nat (List.length (f :: fnames)) /\
    tv s' <> 0 /\
    stdout s' =
      stdout init_state ++ mid ++
      [Print (SummaryLine (num_records s') (ti s') (tv s') (ratio_of s'));
       Flush] /\
    existsb is_summary mid = false.
Proof.
  apply (normal_run (one_file (alternating 2)) (Some ["a.vcf"]) (Some 3)
           init_state).
  reflexivity.
Defined.

Lemma for_each_files_no_usage (fs : FileSystem) (nlimit : option Z)
  (fnames : list string) :
  forall s,
  exists new,
    stdout (snd (for_each fnames
                   (fun fname => process_file fs fname nlimit) s)) =
      stdout s ++ new /\
    existsb is_usage new = false.
Proof.
  induction fnames as [|f fnames IH]; intros s.
  - exists []. cbn. now rewrite app_nil_r.
  - cbn [for_each]. unfold bind.
    destruct (process_file_prints fs f nlimit s) as [new1 [H1 H2]].
    assert (Hq : existsb is_usage new1 = false).
    { clear H1. induction new1 as [|[[]|] new1 IHn]; cbn in H2 |- *;
        try discriminate; auto. }
    destruct (process_file fs f nlimit s) as [[[] | e] s1]; cbn [fst snd] in *.
    + destruct (IH s1) as [new2 [E1 E2]].
      exists ((Print (ProcessingLine f) :: new1) ++ new2).
      rewrite E1, H1, <- app_assoc. split; [reflexivity|].
      rewrite existsb_app. cbn. now rewrite Hq, E2.
    + exists (Print (ProcessingLine f) :: new1). split; [exact H1|].
      cbn. exact Hq.
Qed.

(** X6.  With no file named ([None] or an empty list) a run writes the
    usage line and calls [exit(1)], and that is all: the counters are left
    alone.  With at least one file named it never writes the usage line
    and never calls [exit]; and when it is stopped by the division of
    [print_totals], [tv] is zero in the state it leaves. *)
Theorem usage_exit_only_without_files (fs : FileSystem)
  (filenames : option (list string)) (nlimit : option Z) (s : State) :
  match filenames with
  | None | Some [] =>
      main fs filenames nlimit s =
      (Raise (SystemExit 1), with_stdout s (stdout s ++ [Print UsageLine]))
  | Some (f :: fnames) =>
      (exists new,
          stdout (snd (main fs filenames nlimit s)) = stdout s ++ new /\
          existsb is_usage new = false) /\
      match fst (main fs filenames nlimit s) with
      | Raise (SystemExit _) => False
      | Raise ZeroDivisionError =>
          tv (snd (main fs filenames nlimit s)) = 0
      | _ => True
      end
  end.
Proof.
  destruct filenames as [[|f fnames]|]; try reflexivity.
  unfold main, bind.
  pose proof (for_each_raise_inv (fun fname => process_file fs fname nlimit))
    as Hinv.
  destruct (for_each_files_no_usage fs nlimit (f :: fnames) s)
    as [new [E1 E2]].
  destruct (for_each (f :: fnames) _ s) as [[[] | e] s1] eqn:E;
    cbn [fst snd] in *.
  - destruct (Z.eq_dec (tv s1) 0) as [Hz | Hz].
    + rewrite (print_totals_zero None s1 Hz). cbn [fst snd].
      split; [now exists new | exact Hz].
    + rewrite (print_totals_nonzero None s1 Hz).
      cbn [fst snd with_stdout stdout]. split; [|exact I].
      eexists. rewrite E1, <- app_assoc. split; [reflexivity|].
      rewrite existsb_app, E2. reflexivity.
  - split; [now exists new|].
    specialize (Hinv e (f :: fnames) s). rewrite E in Hinv.
    destruct (Hinv eq_refl) as [g [t [Hin Hg]]]. cbn [snd] in Hg.
    pose proof (process_file_cases fs g nlimit t) as Hc.
    rewrite Hg in Hc. cbn [fst snd] in Hc.
    destruct e; try exact I; exact Hc.
Qed.

(** ** Counters only grow *)

Lemma extends_refl (s : State) : extends s s.
Proof.
  repeat split; try lia. exists []. now rewrite app_nil_r.
Qed.

Lemma extends_trans (s t u : State) :
  extends s t -> extends t u -> extends s u.
Proof.
  intros [H1 [H2 [H3 [a Ha]]]] [K1 [K2 [K3 [b Kb]]]].
  repeat split; try lia.
  exists (a ++ b). now rewrite Kb, Ha, app_assoc.
Qed.

Lemma while_true_extends (nlimit : option Z) (recs : list VcfRecord) (i : Z)
  (s : State) :
  extends s (snd (while_true nlimit recs i s)).
Proof.
  destruct (while_true_trace recs nlimit i s)
    as [k [_ [Hn [Hti [Htv _]]]]].
  destruct (while_true_prints recs nlimit i s) as [new [Hout _]].
  pose proof (count_class_nonneg Transition (firstn k recs)).
  pose proof (count_class_nonneg Transversion (firstn k recs)).
  repeat split; try lia. now exists new.
Qed.

Lemma process_file_extends (fs : FileSystem) (fname : string)
  (nlimit : option Z) (s : State) :
  extends s (snd (process_file fs fname nlimit s)).
Proof.
  rewrite process_file_unfold.
  assert (Ha : extends s (announced fname s)).
  { repeat split; cbn; try lia. now eexists. }
  destruct (fs fname) as [recs|]; [|exact Ha].
  pose proof (while_true_extends nlimit recs 0 (announced fname s)) as Hw.
  destruct (while_true nlimit recs 0 (announced fname s)) as [[rest | e] s'];
    cbn [snd] in *; exact (extends_trans _ _ _ Ha Hw).
Qed.

Lemma print_totals_extends (i : option Z) (s : State) :
  extends s (snd (print_totals i s)).
Proof.
  destruct (Z.eq_dec (tv s) 0) as [Hz | Hz].
  - rewrite (print_totals_zero i s Hz). apply extends_refl.
  - rewrite (print_totals_nonzero i s Hz).
    repeat split; cbn; try lia. now eexists.
Qed.

(** X7.  Nothing in a run takes anything back: from whatever state it is
    started, [ti], [tv] and [num_records] end no smaller than they began
    and the output ends as what was there before with more after it,
    whichever way the run ends. *)
Theorem run_only_adds (fs : FileSystem) (filenames : option (list string))
  (nlimit : option Z) (s : State) :
  extends s (snd (main fs filenames nlimit s)).
Proof.
  assert (Husage :
    extends s
      (snd ((print UsageLine ;; (raise (SystemExit 1) : M unit)) s))).
  { repeat split; cbn; try lia. now eexists. }
  destruct filenames as [[|f fnames]|]; try exact Husage.
  unfold main, bind.
  pose proof (for_each_preserves (extends s)
                (fun fname => process_file fs fname nlimit) (f :: fnames)
                (fun x t Ht =>
                   extends_trans _ _ _ Ht (process_file_extends fs x nlimit t))
                s (extends_refl s)) as Hf.
  destruct (for_each (f :: fnames) _ s) as [[[] | e] s1];
    cbn [snd] in *; [|exact Hf].
  exact (extends_trans _ _ _ Hf (print_totals_extends None s1)).
Qed.

(** ** The lines of totals can be trusted *)

Lemma multiple_of_1000_large (z : Z) :
  1 <= z -> multiple_of_1000 z = true -> 1000 <= z.
Proof.
  unfold multiple_of_1000. intros Hz Hm. apply Z.eqb_eq in Hm.
  Z.div_mod_to_equations. lia.
Qed.

(** The head of a turn leaves a sound state sound, with room for one more
    classified record; [b] says whether the progress line was printed. *)
Lemma head_sound (i : Z) (s : State) (b : bool) :
  sound s -> 0 <= i <= num_records s ->
  (b = true -> multiple_of_1000 (i + 1) = true /\ tv s <> 0) ->
  let s1 :=
    if b then
      with_stdout (seen s)
        (stdout s ++ [Print (totals_line (Some (i + 1)) (seen s)); Flush])
    else seen s in
  sound s1 /\ ti s1 + tv s1 < num_records s1 /\ i + 1 <= num_records s1.
Proof.
  intros [Hti [Htv [Hb Hout]]] Hi Hprint.
  destruct b; unfold sound; cbn [ti tv num_records stdout with_stdout seen].
  - destruct (Hprint eq_refl) as [Hmult Hnz].
    split; [|lia]. repeat split; try lia.
    apply Forall_app. split; [exact Hout|].
    constructor; [|repeat constructor].
    cbn. repeat split; try lia; [exact Hmult|].
    apply multiple_of_1000_large; [lia | exact Hmult].
  - split; [|lia]. repeat split; try lia. exact Hout.
Qed.

Lemma account_keeps_sound (rec : VcfRecord) (s : State) :
  sound s -> ti s + tv s < num_records s ->
  sound (snd (account_rec_native rec s)) /\
  num_records (snd (account_rec_native rec s)) = num_records s.
Proof.
  intros [Hti [Htv [Hb Hout]]] Hroom.
  destruct (account_rec_native_counts rec s)
    as [s' [E [Hn [Ho [Hti' [Htv' Hs]]]]]].
  rewrite E. cbn [snd]. split; [|exact Hn].
  unfold counted in Hs.
  repeat split; try (destruct (is_snp rec); lia).
  rewrite Ho. exact Hout.
Qed.

(** The loop keeps a sound state sound and ends with room between the
    classified records and the records counted. *)
Lemma while_true_sound (recs : list VcfRecord) :
  forall nlimit i s,
    sound s -> 0 <= i <= num_records s ->
    sound (snd (while_true nlimit recs i s)) /\
    ti (snd (while_true nlimit recs i s))
    + tv (snd (while_true nlimit recs i s))
    < num_records (snd (while_true nlimit recs i s)).
Proof.
  induction recs as [|rec rest IH]; intros nlimit i s Hs Hi; turn; cbn [snd];
    try (pose proof (head_sound i s false Hs Hi ltac:(discriminate))
           as [H1 [H2 H3]]; now split);
    try (pose proof (head_sound i s true Hs Hi (fun _ => conj Hmult Htv))
           as [H1 [H2 H3]]; now split).
  - pose proof (head_sound i s true Hs Hi (fun _ => conj Hmult Htv))
      as [H1 [H2 H3]].
    destruct (account_keeps_sound rec _ H1 H2) as [K1 K2].
    apply IH; [exact K1 | rewrite K2; lia].
  - pose proof (head_sound i s false Hs Hi ltac:(discriminate))
      as [H1 [H2 H3]].
    destruct (account_keeps_sound rec _ H1 H2) as [K1 K2].
    apply IH; [exact K1 | rewrite K2; lia].
Qed.

Lemma process_file_sound (fs : FileSystem) (fname : string)
  (nlimit : option Z) (s : State) :
  sound s ->
  sound (snd (process_file fs fname nlimit s)) /\
  (fst (process_file fs fname nlimit s) = Ok tt ->
   ti (snd (process_file fs fname nlimit s))
   + tv (snd (process_file fs fname nlimit s))
   < num_records (snd (process_file fs fname nlimit s))).
Proof.
  intros Hs. rewrite process_file_unfold.
  assert (Ha : sound (announced fname s)).
  { destruct Hs as [Hti [Htv [Hb Hout]]]. repeat split; cbn; try lia.
    apply Forall_app. split; [exact Hout | repeat constructor]. }
  destruct (fs fname) as [recs|]; [|split; [exact Ha | discriminate]].
  assert (Hi : 0 <= 0 <= num_records (announced fname s)).
  { destruct Ha as [Hti [Htv [Hb _]]]. lia. }
  pose proof (while_true_sound recs nlimit 0 _ Ha Hi) as [H1 H2].
  destruct (while_true nlimit recs 0 (announced fname s)) as [[rest | e] s'];
    cbn [fst snd] in *; split; auto.
Qed.

Lemma for_each_files_sound (fs : FileSystem) (nlimit : option Z)
  (fnames : list string) :
  forall s,
    sound s ->
    ti s + tv s < num_records s \/ fnames <> [] ->
    sound (snd (for_each fnames
                  (fun fname => process_file fs fname nlimit) s)) /\
    (fst (for_each fnames
            (fun fname => process_file fs fname nlimit) s) = Ok tt ->
     ti (snd (for_each fnames
                (fun fname => process_file fs fname nlimit) s))
     + tv (snd (for_each fnames
                  (fun fname => process_file fs fname nlimit) s))
     < num_records
         (snd (for_each fnames
                 (fun fname => process_file fs fname nlimit) s))).
Proof.
  induction fnames as [|f fnames IH]; intros s Hs Hroom.
  - cbn. split; [exact Hs|]. intros _.
    destruct Hroom as [H | H]; [exact H | now elim H].
  - cbn [for_each]. unfold bind.
    destruct (process_file_sound fs f nlimit s Hs) as [H1 H2].
    destruct (process_file fs f nlimit s) as [[[] | e] s1];
      cbn [fst snd] in *.
    + apply IH; [exact H1 | left; now apply H2].
    + split; [exact H1 | discriminate].
Qed.

(** X8.  Started from a sound state, a run ends in a sound state: every
    line of totals it has printed shows a [ti] that is not negative, a
    positive [tv], their exact quotient as the ratio and fewer classified
    records than records, and every progress line a [num records=] field
    that is a multiple of 1000 between 1000 and its [tot=] field. *)
Theorem printed_totals_sound (fs : FileSystem)
  (filenames : option (list string)) (nlimit : option Z) (s : State) :
  sound s -> sound (snd (main fs filenames nlimit s)).
Proof.
  intros Hs.
  assert (Husage :
    sound (snd ((print UsageLine ;; (raise (SystemExit 1) : M unit)) s))).
  { destruct Hs as [Hti [Htv [Hb Hout]]]. repeat split; cbn; try lia.
    apply Forall_app. split; [exact Hout | repeat constructor]. }
  destruct filenames as [[|f fnames]|]; try exact Husage.
  unfold main, bind.
  assert (Hne : f :: fnames <> []) by discriminate.
  destruct (for_each_files_sound fs nlimit (f :: fnames) s Hs
              (or_intror Hne)) as [H1 H2].
  destruct (for_each (f :: fnames) _ s) as [[[] | e] s1];
    cbn [fst snd] in *; [|exact H1].
  specialize (H2 eq_refl).
  destruct (Z.eq_dec (tv s1) 0) as [Hz | Hz].
  - rewrite (print_totals_zero None s1 Hz). exact H1.
  - rewrite (print_totals_nonzero None s1 Hz).
    destruct H1 as [Hti [Htv [Hb Hout]]].
    repeat split; cbn [snd ti tv num_records stdout with_stdout]; try lia.
    apply Forall_app. split; [exact Hout|].
    constructor; [|repeat constructor].
    cbn. repeat split; lia.
Qed.

Lemma printed_totals_sound_witness :
  sound (snd (main (every_file (alternating 750)) (Some ["a.vcf"; "b.vcf"])
                   (Some 1200) init_state)).
Proof.
  apply (printed_totals_sound (every_file (alternating 750))
           (Some ["a.vcf"; "b.vcf"]) (Some 1200) init_state).
  repeat split; cbn; try lia. constructor.
Defined.

(** ** A first file without transversions *)

Lemma multiple_of_1000_small (z : Z) :
  0 < z < 1000 -> multiple_of_1000 z = false.
Proof.
  intros Hz. unfold multiple_of_1000. apply Z.eqb_neq.
  rewrite Z.mod_small; lia.
Qed.

Lemma while_true_no_transversion (recs : list VcfRecord) :
  forall nlimit i s,
    0 <= i < 1000 ->
    tv s = 0 ->
    limit_reached nlimit 999 = false ->
    999 - i <= Z.of_nat (List.length recs) ->
    count_class Transversion (firstn (Z.to_nat (999 - i)) recs) = 0 ->
    fst (while_true nlimit recs i s) = Raise ZeroDivisionError /\
    ti (snd (while_true nlimit recs i s)) =
      ti s + count_class Transition (firstn (Z.to_nat (999 - i)) recs) /\
    tv (snd (while_true nlimit recs i s)) = 0 /\
    num_records (snd (while_true nlimit recs i s)) =
      num_records s + (1000 - i) /\
    stdout (snd (while_true nlimit recs i s)) = stdout s.
Proof.
  induction recs as [|rec rest IH];
    intros nlimit i s Hi Hz Hlim Hlen Hcount;
    rewrite while_true_unfold;
    destruct (Z.eq_dec i 999) as [-> | Hne].
  - change (multiple_of_1000 (999 + 1)) with true. rewrite Hz.
    cbn. repeat split; lia.
  - cbn [List.length] in Hlen. lia.
  - change (multiple_of_1000 (999 + 1)) with true. rewrite Hz.
    cbn. repeat split; lia.
  - rewrite (multiple_of_1000_small (i + 1)) by lia. cbn [andb]. cbv zeta.
    rewrite (limit_reached_below nlimit (i + 1) 999 ltac:(lia) Hlim).
    replace (Z.to_nat (999 - i)) with (S (Z.to_nat (999 - (i + 1))))
      in Hcount |- * by lia.
    cbn [firstn count_class] in Hcount |- *.
    pose proof (count_class_nonneg Transversion
                  (firstn (Z.to_nat (999 - (i + 1))) rest)) as Hnn.
    rewrite Classifier.account_rec_native_classify. cbn [snd].
    cbn [List.length] in Hlen.
    destruct (classify_rec rec); cbn [class_eqb] in Hcount |- *;
      try lia;
      match goal with
      | |- context [while_true nlimit rest (i + 1) ?s2] =>
          destruct (IH nlimit (i + 1) s2 ltac:(lia) Hz Hlim ltac:(lia)
                      ltac:(lia)) as [H1 [H2 [H3 [H4 H5]]]];
          rewrite H1, H2, H3, H4, H5;
          cbn [ti tv num_records stdout seen];
          repeat split; lia
      end.
Qed.

(** X9.  A run started with [tv] at zero on a first file that opens on at
    least 999 records with no transversion among the first 999, and with
    no limit or a limit of 1000 or more, ends in the thousandth turn of
    that file by [ZeroDivisionError]: 1000 has been added to
    [num_records], the transitions among the 999 records read to [ti], and
    only the announcement of the file has been written. *)
Theorem first_progress_line_needs_a_transversion (fs : FileSystem)
  (f : string) (fnames : list string) (recs : list VcfRecord)
  (nlimit : option Z) (s : State) :
  fs f = Some recs ->
  tv s = 0 ->
  limit_reached nlimit 999 = false ->
  999 <= Z.of_nat (List.length recs) ->
  count_class Transversion (firstn 999 recs) = 0 ->
  let r := main fs (Some (f :: fnames)) nlimit s in
  fst r = Raise ZeroDivisionError /\
  ti (snd r) = ti s + count_class Transition (firstn 999 recs) /\
  tv (snd r) = 0 /\
  num_records (snd r) = num_records s + 1000 /\
  stdout (snd r) = stdout s ++ [Print (ProcessingLine f)].
Proof.
  intros Hf Hz Hlim Hlen Hcount.
  destruct (while_true_no_transversion recs nlimit 0 (announced f s)
              ltac:(lia) Hz Hlim ltac:(lia) Hcount)
    as [H1 [H2 [H3 [H4 H5]]]].
  change (Z.to_nat (999 - 0)) with 999%nat in H2.
  assert (E : main fs (Some (f :: fnames)) nlimit s =
              (Raise ZeroDivisionError,
               snd (while_true nlimit recs 0 (announced f s)))).
  { unfold main. cbn [for_each]. unfold bind.
    rewrite process_file_unfold, Hf.
    destruct (while_true nlimit recs 0 (announced f s)) as [[rest | e] s'];
      cbn [fst snd] in *; [discriminate|].
    now injection H1 as ->. }
  intros r. subst r. rewrite E. cbn [fst snd].
  cbn [announced with_stdout ti tv num_records stdout] in H2, H3, H4, H5.
  repeat split; solve [assumption | lia].
Qed.

Lemma first_progress_line_needs_a_transversion_witness :
  let r := main (one_file (repeat (snp "A" "G") 999)) (Some ["a.vcf"]) None
                init_state in
  fst r = Raise ZeroDivisionError /\
  ti (snd r) =
    ti init_state
    + count_class Transition (firstn 999 (repeat (snp "A" "G") 999)) /\
  tv (snd r) = 0 /\
  num_records (snd r) = num_records init_state + 1000 /\
  stdout (snd r) = stdout init_state ++ [Print (ProcessingLine "a.vcf")].
Proof.
  apply (first_progress_line_needs_a_transversion
           (one_file (repeat (snp "A" "G") 999)) "a.vcf" []
           (repeat (snp "A" "G") 999) None init_state).
  - reflexivity.
  - reflexivity.
  - reflexivity.
  - vm_compute. discriminate.
  - vm_compute. reflexivity.
Defined.

(** ** A limit of one or less *)

Lemma for_each_low_limit (fs : FileSystem) (n : Z) (fnames : list string) :
  n <= 1 ->
  forall s,
    (forall g, In g fnames -> fs g <> None) ->
    for_each fnames (fun fname => process_file fs fname (Some n)) s =
    (Ok tt,
     mkState (ti s) (tv s) (num_records s + Z.of_nat (List.length fnames))
       (stdout s ++ map (fun g => Print (ProcessingLine g)) fnames)).
Proof.
  intros Hn. induction fnames as [|f fnames IH]; intros s Hopen.
  - cbn. rewrite Z.add_0_r, app_nil_r. now destruct s.
  - cbn [for_each]. unfold bind at 1.
    rewrite process_file_unfold.
    destruct (fs f) as [recs|] eqn:Hf;
      [|now elim (Hopen f (or_introl eq_refl))].
    rewrite while_true_unfold.
    change (multiple_of_1000 (0 + 1)) with false. cbn [andb]. cbv zeta.
    assert (Hl : limit_reached (Some n) (0 + 1) = true).
    { cbn. apply Z.leb_le. lia. }
    rewrite Hl, IH by (intros g Hg; apply Hopen; now right).
    cbn [seen announced with_stdout ti tv num_records stdout map List.length].
    rewrite <- app_assoc. f_equal. f_equal. lia.
Qed.

(** X3.  Under a limit of one or less (zero and negative values
    included) a run over files on each of which [open] and [vcf.Reader],
    lines 35-36, succeed never calls [next()]: it announces every file,
    adds one to [num_records] for each and then calls [print_totals(None)]
    on the [ti] and [tv] it started with. *)
Theorem low_limit_reads_nothing (fs : FileSystem) (f : string)
  (fnames : list string) (n : Z) (s : State) :
  n <= 1 ->
  (forall g, In g (f :: fnames) -> fs g <> None) ->
  main fs (Some (f :: fnames)) (Some n) s =
  print_totals None
    (mkState (ti s) (tv s)
       (num_records s + Z.of_nat (List.length (f :: fnames)))
       (stdout s ++ map (fun g => Print (ProcessingLine g)) (f :: fnames))).
Proof.
  intros Hn Hopen. unfold main, bind.
  now rewrite (for_each_low_limit fs n (f :: fnames) Hn s Hopen).
Qed.

Lemma low_limit_reads_nothing_witness :
  main (every_file (alternating 2)) (Some ["a.vcf"; "b.vcf"]) (Some 0)
       (mkState 3 2 7 []) =
  print_totals None
    (mkState 3 2 (7 + Z.of_nat (List.length ["a.vcf"; "b.vcf"]))
       ([] ++ map (fun g => Print (ProcessingLine g)) ["a.vcf"; "b.vcf"])).
Proof.
  apply (low_limit_reads_nothing (every_file (alternating 2)) "a.vcf"
           ["b.vcf"] 0 (mkState 3 2 7 [])).
  - lia.
  - intros g _. unfold every_file. discriminate.
Defined.

End Whole.
